(** * JobCatcher multi-agent orchestration: a shallow embedding

    This development embeds the orchestration core of
    [backend/app/agents/base.py] ([BaseAgent.invoke] and
    [BaseAgent._process_response]) and [backend/app/agents/coordinator.py]
    ([AgentCoordinator]): the routing functions, the nodes of the workflow
    graph, the graph run and [execute_workflow].

    The shared [AgentState] is a Python dict read with [state.get(key,
    default)]; it is modelled as a record whose optional keys are [option]
    fields ([None] = key absent).  A dict returned by an agent and merged with
    [dict.update] is a [Delta]: a record of [option] fields, [None] meaning
    that the returned dict does not contain that key. *)

From Stdlib Require Import String Ascii List ZArith Bool Lia.
Import ListNotations.
Open Scope string_scope.

(** ** Exceptions *)

(** A Python computation that either returns a value or raises an exception
    carrying its message [str(e)]. *)
Inductive Exc (A : Type) : Type :=
| Ok : A -> Exc A
| Raise : string -> Exc A.
Arguments Ok {A} _.
Arguments Raise {A} _.

Definition exc_bind {A B} (m : Exc A) (k : A -> Exc B) : Exc B :=
  match m with
  | Ok a => k a
  | Raise e => Raise e
  end.

Notation "'let*' x := m 'in' k" := (exc_bind m (fun x => k))
  (at level 200, x name, m at level 100, k at level 200).

(** ** Python string helpers *)

(** [s.startswith(p)] *)
Definition startswith (s p : string) : bool := String.prefix p s.

Fixpoint replace_aux (fuel : nat) (pat rep s : string) : string :=
  match fuel with
  | O => s
  | S f =>
      match s with
      | EmptyString => EmptyString
      | String c s' =>
          if String.prefix pat s
          then rep ++ replace_aux f pat rep
                        (substring (String.length pat)
                           (String.length s - String.length pat) s)
          else String c (replace_aux f pat rep s')
      end
  end.

(** [s.replace(pat, rep)] for a non-empty [pat]: every non-overlapping
    occurrence, scanning from the left, is replaced. *)
Definition replace (s pat rep : string) : string :=
  replace_aux (String.length s) pat rep s.

(** [x in l] for a list of strings *)
Definition str_in (x : string) (l : list string) : bool :=
  existsb (String.eqb x) l.

(** ** Messages *)

(** A tool call of an [AIMessage] ([{"name": ..., "id": ..., "args": ...}]). *)
Record ToolCall := mkToolCall {
  tc_name : string;
  tc_id : string;
  tc_args : string
}.

Inductive Role := Human | AI | System.

(** A LangChain message.  [msg_tool_calls] is [None] for a message without a
    [tool_calls] attribute (a [HumanMessage]); an [AIMessage] built with only
    [content] has [Some []]. *)
Record Message := mkMessage {
  msg_role : Role;
  msg_content : string;
  msg_tool_calls : option (list ToolCall)
}.

(** [AIMessage(content=c)] *)
Definition AIMessage (c : string) : Message := mkMessage AI c (Some []).

(** ** Shared state *)

(** [WorkflowType(str, Enum)]: members compare equal to their string
    values, so the state's [workflow_type] is kept as the string it holds. *)
Inductive WorkflowType :=
| JOB_SEARCH | RESUME_ANALYSIS | SKILL_ANALYSIS | RESUME_OPTIMIZATION
| COMPREHENSIVE.

Definition workflow_value (w : WorkflowType) : string :=
  match w with
  | JOB_SEARCH => "job_search"
  | RESUME_ANALYSIS => "resume_analysis"
  | SKILL_ANALYSIS => "skill_analysis"
  | RESUME_OPTIMIZATION => "resume_optimization"
  | COMPREHENSIVE => "comprehensive"
  end.

(** The keys of the state dicts the code reads or writes.  Only
    [messages], [search_query] and [job_results] among them are channels of
    the graph [StateGraph(AgentState)]: [AgentState] is a [MessagesState]
    declaring [user_id], [session_id], [current_resume_data],
    [search_query], [job_results], [skill_analysis], [workflow_context],
    [thinking_enabled] and [document_context].  The other channels are read
    by none of the modelled functions and are not represented. *)
Record AgentState := mkState {
  messages : list Message;
  workflow_type : option string;
  next_agent : option string;
  current_agent : option string;
  completed_agents : option (list string);
  error_count : option Z;
  error : option string;
  last_response : option string;
  tool_results : option (list string);
  search_query : option string;
  job_results : option (list string)
}.

(** A dict returned by a node or an agent: only the keys it contains. *)
Record Delta := mkDelta {
  d_messages : option (list Message);
  d_workflow_type : option string;
  d_next_agent : option string;
  d_current_agent : option string;
  d_completed_agents : option (list string);
  d_error_count : option Z;
  d_error : option string;
  d_last_response : option string;
  d_tool_results : option (list string);
  d_search_query : option string;
  d_job_results : option (list string)
}.

Definition empty_delta : Delta :=
  mkDelta None None None None None None None None None None None.

Definition pick {A} (d : option A) (s : A) : A :=
  match d with Some v => v | None => s end.

Definition pick_opt {A} (d : option A) (s : option A) : option A :=
  match d with Some v => Some v | None => s end.

(** [updated_state = state.copy(); updated_state.update(result)] *)
Definition merge (s : AgentState) (d : Delta) : AgentState :=
  mkState (pick d.(d_messages) s.(messages))
          (pick_opt d.(d_workflow_type) s.(workflow_type))
          (pick_opt d.(d_next_agent) s.(next_agent))
          (pick_opt d.(d_current_agent) s.(current_agent))
          (pick_opt d.(d_completed_agents) s.(completed_agents))
          (pick_opt d.(d_error_count) s.(error_count))
          (pick_opt d.(d_error) s.(error))
          (pick_opt d.(d_last_response) s.(last_response))
          (pick_opt d.(d_tool_results) s.(tool_results))
          (pick_opt d.(d_search_query) s.(search_query))
          (pick_opt d.(d_job_results) s.(job_results)).

(** [dict(state)]: a dict holding every key present in the state. *)
Definition delta_of_state (s : AgentState) : Delta :=
  mkDelta (Some s.(messages)) s.(workflow_type) s.(next_agent)
          s.(current_agent) s.(completed_agents) s.(error_count) s.(error)
          s.(last_response) s.(tool_results) s.(search_query)
          s.(job_results).

(** [state["next_agent"] = v] *)
Definition set_next_agent (s : AgentState) (v : string) : AgentState :=
  mkState s.(messages) s.(workflow_type) (Some v) s.(current_agent)
          s.(completed_agents) s.(error_count) s.(error) s.(last_response)
          s.(tool_results) s.(search_query) s.(job_results).

(** ** Routing ([AgentCoordinator]) *)

Definition is_wf (w : option string) (t : WorkflowType) : bool :=
  match w with
  | Some v => String.eqb v (workflow_value t)
  | None => false
  end.

(** [_determine_comprehensive_flow] *)
Definition determine_comprehensive_flow (s : AgentState) : string :=
  let completed := pick s.(completed_agents) [] in
  if negb (str_in "job_search_agent" completed) then "job_search_agent"
  else if negb (str_in "resume_critic_agent" completed) then "resume_critic_agent"
  else if negb (str_in "skill_heatmap_agent" completed) then "skill_heatmap_agent"
  else if negb (str_in "resume_rewrite_agent" completed) then "resume_rewrite_agent"
  else "end".

(** [_is_workflow_complete] *)
Definition is_workflow_complete (s : AgentState) : bool :=
  let wt := s.(workflow_type) in
  let completed := pick s.(completed_agents) [] in
  let ec := pick s.(error_count) 0%Z in
  if (5 <? ec)%Z then true
  else if is_wf wt JOB_SEARCH then str_in "job_search_agent" completed
  else if is_wf wt RESUME_ANALYSIS then str_in "resume_critic_agent" completed
  else if is_wf wt SKILL_ANALYSIS then str_in "skill_heatmap_agent" completed
  else if is_wf wt RESUME_OPTIMIZATION then str_in "resume_rewrite_agent" completed
  else if is_wf wt COMPREHENSIVE then
    forallb (fun a => str_in a completed)
      ["job_search_agent"; "resume_critic_agent"; "skill_heatmap_agent";
       "resume_rewrite_agent"]
  else false.

(** [_coordinator_node]: sets [next_agent] in place and returns the state. *)
Definition coordinator_node (s : AgentState) : AgentState :=
  let wt := s.(workflow_type) in
  if is_wf wt JOB_SEARCH then set_next_agent s "job_search_agent"
  else if is_wf wt RESUME_ANALYSIS then set_next_agent s "resume_critic_agent"
  else if is_wf wt SKILL_ANALYSIS then set_next_agent s "skill_heatmap_agent"
  else if is_wf wt RESUME_OPTIMIZATION then set_next_agent s "resume_rewrite_agent"
  else if is_wf wt COMPREHENSIVE then
    set_next_agent s (determine_comprehensive_flow s)
  else set_next_agent s "end".

(** [_route_to_agent]: [state.get("next_agent", "end")] *)
Definition route_to_agent (s : AgentState) : string :=
  pick s.(next_agent) "end".

(** [for tool_call in last_message.tool_calls: if name.startswith(...)]:
    the first handoff marker of the list, with its target. *)
Fixpoint first_transfer (tcs : list ToolCall) : option string :=
  match tcs with
  | [] => None
  | tc :: rest =>
      if startswith tc.(tc_name) "transfer_to_"
      then Some (replace tc.(tc_name) "transfer_to_" "")
      else first_transfer rest
  end.

(** [state.get("messages", [])[-1] if state.get("messages") else None] *)
Definition last_message (s : AgentState) : option Message :=
  match rev s.(messages) with
  | [] => None
  | m :: _ => Some m
  end.

(** The handoff check at the head of [_determine_next_agent]: the target of
    the first [transfer_to_] tool call of the last message, if any. *)
Definition handoff_target (s : AgentState) : option string :=
  match last_message s with
  | Some m =>
      match m.(msg_tool_calls) with
      | Some ((_ :: _) as tcs) => first_transfer tcs
      | _ => None
      end
  | None => None
  end.

(** [_determine_next_agent] *)
Definition determine_next_agent (s : AgentState) : string :=
  match handoff_target s with
  | Some target => target
  | None => if is_workflow_complete s then "end" else "coordinator"
  end.

(** ** Agent invocation ([BaseAgent], base.py) *)

(** A content block of a Processor response ([response.content]). *)
Inductive Block :=
| TextBlock (text : string)
| ToolUseBlock (id name input : string).

Inductive ApiContent :=
| CText (s : string)
| CBlocks (b : list Block)
| CToolResults (r : list (string * string)).

(** [{"role": ..., "content": ...}] sent to the Processor *)
Record ApiMessage := mkApi {
  api_role : string;
  api_content : ApiContent
}.

(** A [BaseAgent]: its name, the Processor
    ([anthropic_client.messages.create(tools=..., messages=...)], given the
    tool names bound and the message history) and its Tools by name. *)
Record BaseAgent := mkAgent {
  name : string;
  processor : list string -> list ApiMessage -> Exc (list Block);
  tools : list (string * (string -> Exc string))
}.

(** [_build_messages].  The system prompt it computes is not sent to the
    Processor, so it is left out. *)
Definition build_messages (s : AgentState) : list ApiMessage :=
  let msgs :=
    map (fun m => mkApi (match m.(msg_role) with Human => "user" | _ => "assistant" end)
                        (CText m.(msg_content))) s.(messages) in
  let msgs := match msgs with
              | [] => [mkApi "user" (CText "请开始处理当前任务。")]
              | _ => msgs
              end in
  match msgs with
  | m :: _ => if String.eqb m.(api_role) "user" then msgs
              else mkApi "user" (CText "开始处理") :: msgs
  | [] => msgs
  end.

(** [_prepare_tool_definitions], reduced to the tool names. *)
Definition prepare_tool_definitions (ag : BaseAgent) : list string :=
  map fst ag.(tools).

Fixpoint find_tool (n : string) (ts : list (string * (string -> Exc string)))
  : option (string -> Exc string) :=
  match ts with
  | [] => None
  | (n', t) :: rest => if String.eqb n' n then Some t else find_tool n rest
  end.

(** One iteration of [_execute_tools]: a Tool failure is caught and becomes
    a result string. *)
Definition execute_tool (ag : BaseAgent) (tc : string * string * string)
  : string :=
  let '(_, tname, tinput) := tc in
  match find_tool tname ag.(tools) with
  | Some t =>
      match t tinput with
      | Ok r => r
      | Raise e => "工具执行错误: " ++ e
      end
  | None => "未找到工具: " ++ tname
  end.

(** [_execute_tools] *)
Definition execute_tools (ag : BaseAgent) (tcs : list (string * string * string))
  : list string :=
  map (execute_tool ag) tcs.

Fixpoint response_text (bs : list Block) : string :=
  match bs with
  | [] => ""
  | TextBlock t :: rest => t ++ response_text rest
  | _ :: rest => response_text rest
  end.

Fixpoint tool_uses (bs : list Block) : list (string * string * string) :=
  match bs with
  | [] => []
  | ToolUseBlock i n x :: rest => (i, n, x) :: tool_uses rest
  | _ :: rest => tool_uses rest
  end.

Definition text_message (t : string) : list Message :=
  if String.eqb t "" then [] else [AIMessage t].

(** [_process_response]: returns [dict(state)] with [messages],
    [last_response] and, when tools were called, [tool_results] updated. *)
Definition process_response (ag : BaseAgent) (response : list Block)
    (s : AgentState) : Exc Delta :=
  let response_content := response_text response in
  let tcs := tool_uses response in
  let new1 := text_message response_content in
  let* r :=
    match tcs with
    | [] => Ok (new1, None)
    | _ =>
        let results := execute_tools ag tcs in
        match results with
        | [] => Ok (new1, Some results)
        | _ =>
            let tool_result_content :=
              map (fun '(tc, r) => let '(i, _, _) := tc in (i, r))
                  (combine tcs results) in
            let msgs := (build_messages s ++
                         [mkApi "assistant" (CBlocks response);
                          mkApi "user" (CToolResults tool_result_content)])%list in
            let* final := ag.(processor) [] msgs in
            Ok ((new1 ++ text_message (response_text final))%list, Some results)
        end
    end in
  let '(new_messages, tres) := r in
  let d := delta_of_state s in
  Ok (mkDelta (Some (s.(messages) ++ new_messages)%list) d.(d_workflow_type)
              d.(d_next_agent) d.(d_current_agent) d.(d_completed_agents)
              d.(d_error_count) d.(d_error)
              (Some (if String.eqb response_content "" then "工具调用完成"
                     else response_content))
              (pick_opt tres d.(d_tool_results)) d.(d_search_query)
              d.(d_job_results)).

(** The body of the [try] block of [invoke]. *)
Definition invoke_body (ag : BaseAgent) (s : AgentState) : Exc Delta :=
  let msgs := build_messages s in
  let tdefs := prepare_tool_definitions ag in
  let* response := ag.(processor) tdefs msgs in
  process_response ag response s.

Definition invoke_error_text : string := "抱歉，处理时遇到错误：".

(** [BaseAgent.invoke]: an exception of the body is caught and turned into
    [{"messages": state["messages"] + [AIMessage(...)], "error": str(e)}]. *)
Definition invoke (ag : BaseAgent) (s : AgentState) : Delta :=
  match invoke_body ag s with
  | Ok d => d
  | Raise e =>
      mkDelta (Some (s.(messages) ++ [AIMessage (invoke_error_text ++ e)])%list)
              None None None None None (Some e) None None None None
  end.

(** ** [JobSearchAgent.invoke] (job_search_agent.py) *)

(** The collaborators [JobSearchAgent.invoke] uses besides its base agent:
    [get_search_service()] with its [get_search_tool()], the outcome of the
    test [local_search_tool not in self.tools] (a comparison of tool
    objects, not of names: the service's [JobSearchTool] and the
    registered [LocalJobSearchTool] share the name "query_local_jobs" but
    are not equal), the [self.llm.bind_tools(self.tools)] call made when
    that test succeeds, [_extract_jobs_from_response] and
    [_cache_jobs_to_database]. *)
Record JobSearchAgent := mkJobSearch {
  js_base : BaseAgent;
  js_search_tool : Exc (string * (string -> Exc string));
  js_tool_in_tools : bool;
  js_bind_tools : Exc unit;
  js_extract_jobs : string -> list string;
  js_cache_jobs : list string -> Exc unit
}.

Definition with_job_results (d : Delta) (j : list string) : Delta :=
  mkDelta d.(d_messages) d.(d_workflow_type) d.(d_next_agent)
          d.(d_current_agent) d.(d_completed_agents) d.(d_error_count)
          d.(d_error) d.(d_last_response) d.(d_tool_results)
          d.(d_search_query) (Some j).

Definition with_search_query (d : Delta) (q : string) : Delta :=
  mkDelta d.(d_messages) d.(d_workflow_type) d.(d_next_agent)
          d.(d_current_agent) d.(d_completed_agents) d.(d_error_count)
          d.(d_error) d.(d_last_response) d.(d_tool_results)
          (Some q) d.(d_job_results).

Definition job_search_invoke_body (js : JobSearchAgent) (s : AgentState)
  : Exc Delta :=
  let* tool := js.(js_search_tool) in
  let base := js.(js_base) in
  let* ag :=
    if js.(js_tool_in_tools) then Ok base
    else let* _ := js.(js_bind_tools) in
         Ok (mkAgent base.(name) base.(processor) (base.(tools) ++ [tool])%list) in
  let q := pick s.(search_query) "" in
  let q := if String.eqb q "" then
             match last_message s with
             | Some m => m.(msg_content)
             | None => ""
             end
           else q in
  if String.eqb q "" then
    Ok (mkDelta (Some (s.(messages) ++ [AIMessage "请提供搜索关键词，例如：'Python开发工程师'或'Frontend Developer'"])%list)
                None None None None None None None None None (Some []))
  else
    let result := invoke ag s in
    let jobs := js.(js_extract_jobs) (pick result.(d_last_response) "") in
    match js.(js_cache_jobs) jobs with
    | Ok _ => Ok (with_search_query (with_job_results result jobs) q)
    | Raise _ => Ok (with_job_results result [])
    end.

(** [JobSearchAgent.invoke] *)
Definition job_search_invoke (js : JobSearchAgent) (s : AgentState) : Delta :=
  match job_search_invoke_body js s with
  | Ok d => d
  | Raise e =>
      mkDelta (Some (s.(messages) ++ [AIMessage ("搜索时发生错误：" ++ e)])%list)
              None None None None None (Some e) None None None (Some [])
  end.

(** ** The workflow graph ([_build_workflow_graph]) *)

Inductive AgentName :=
| JobSearchA | ResumeCriticA | SkillHeatmapA | ResumeRewriteA.

(** the keys of [self.agents] *)
Definition agent_key (a : AgentName) : string :=
  match a with
  | JobSearchA => "job_search_agent"
  | ResumeCriticA => "resume_critic_agent"
  | SkillHeatmapA => "skill_heatmap_agent"
  | ResumeRewriteA => "resume_rewrite_agent"
  end.


Inductive Node := CoordinatorNode | AgentNode (a : AgentName).

Inductive Dest := To (n : Node) | END.

Definition agent_of_key (k : string) : option AgentName :=
  if String.eqb k "job_search_agent" then Some JobSearchA
  else if String.eqb k "resume_critic_agent" then Some ResumeCriticA
  else if String.eqb k "skill_heatmap_agent" then Some SkillHeatmapA
  else if String.eqb k "resume_rewrite_agent" then Some ResumeRewriteA
  else None.

(** The path map of the conditional edges leaving ["coordinator"]. *)
Definition coordinator_path_map (k : string) : option Dest :=
  match agent_of_key k with
  | Some a => Some (To (AgentNode a))
  | None => if String.eqb k "end" then Some END else None
  end.

(** The path map of the conditional edges leaving each agent node. *)
Definition agent_path_map (k : string) : option Dest :=
  match agent_of_key k with
  | Some a => Some (To (AgentNode a))
  | None =>
      if String.eqb k "coordinator" then Some (To CoordinatorNode)
      else if String.eqb k "end" then Some END
      else None
  end.

(** What each registered agent's [invoke] returns on a state. *)
Definition Registry := AgentName -> AgentState -> Delta.

(** The registry [AgentCoordinator.__init__] builds from its four agents.
    As written the constructor raises before it gets there:
    [SkillHeatmapAgent.__init__] passes [temperature=0.1] to
    [BaseAgent.__init__(name, description)], a [TypeError].  The registry
    is the one the constructor would build without that argument. *)
Definition source_registry (js : JobSearchAgent) (rc sh rr : BaseAgent)
  : Registry :=
  fun a => match a with
           | JobSearchA => job_search_invoke js
           | ResumeCriticA => invoke rc
           | SkillHeatmapA => invoke sh
           | ResumeRewriteA => invoke rr
           end.

(** [_job_search_node] and its three siblings: [state.copy()] updated with
    the agent's result.  Their [except] branch is unreachable here, since
    [invoke] catches every exception of its body. *)
Definition agent_node (reg : Registry) (a : AgentName) (s : AgentState)
  : AgentState :=
  merge s (reg a s).

(** ** Running the compiled graph *)

(** The graph runtime stops a run that has not reached [END] after
    [recursion_limit] steps; [execute_workflow] passes no config, so the
    default limit applies. *)
Definition recursion_limit : nat := 25.

(** The exceptions a graph run raises: [GraphRecursionError] when the
    recursion limit is reached, and the [KeyError] raised when a branch
    function returns a key [k] absent from its path map.  Their message
    texts (which depend on the LangGraph version and on Python's [repr] of
    [k]) are not modelled: [str(e)] is represented by [e] itself. *)
Inductive RunError :=
| GraphRecursionError
| KeyError (k : string).

Inductive RunResult :=
| Done (s : AgentState)
| Crashed (e : RunError).

(** [run] follows the states the nodes return from node to node, keeping
    every key: the routing of the graph on the nodes' own results.  The
    runtime itself keeps only the channels between nodes; that is
    [graph_run] below. *)
Fixpoint run (reg : Registry) (fuel : nat) (n : Node) (s : AgentState)
  : RunResult :=
  match fuel with
  | O => Crashed GraphRecursionError
  | S f =>
      match n with
      | CoordinatorNode =>
          let s' := coordinator_node s in
          let k := route_to_agent s' in
          match coordinator_path_map k with
          | Some END => Done s'
          | Some (To m) => run reg f m s'
          | None => Crashed (KeyError k)
          end
      | AgentNode a =>
          let s' := agent_node reg a s in
          let k := determine_next_agent s' in
          match agent_path_map k with
          | Some END => Done s'
          | Some (To m) => run reg f m s'
          | None => Crashed (KeyError k)
          end
      end
  end.

(** ** The channels of [StateGraph(AgentState)] *)

(** The graph state: the values of the channels.  A key that is not a
    channel of [AgentState] is dropped from the input of [ainvoke] and from
    every node's result, so no node and no branch function ever sees it. *)
Definition channels (s : AgentState) : AgentState :=
  mkState s.(messages) None None None None None None None None
          s.(search_query) s.(job_results).

(** [add_messages], the reducer of the [messages] channel, on an update
    that resends the channel's messages followed by new ones, as every node
    of this graph does (C9): the messages already in the channel carry the
    ids the reducer gave them and replace themselves, and the messages after
    them are appended. *)
Definition add_messages (left right : list Message) : list Message :=
  (left ++ skipn (length left) right)%list.

(** Writing a node's result to the channels: [messages] through its
    reducer, the other channels by overwriting when the result holds the
    key; the non-channel keys of the result are dropped. *)
Definition update_channels (s out : AgentState) : AgentState :=
  mkState (add_messages s.(messages) out.(messages)) None None None None None
          None None None
          (pick_opt out.(search_query) s.(search_query))
          (pick_opt out.(job_results) s.(job_results)).

(** A run of the compiled graph from node [n] on the graph state [s]: the
    node reads the channels, its result is written to the channels, and the
    branch function reads the channels after that write. *)
Fixpoint graph_run (reg : Registry) (fuel : nat) (n : Node) (s : AgentState)
  : RunResult :=
  match fuel with
  | O => Crashed GraphRecursionError
  | S f =>
      match n with
      | CoordinatorNode =>
          let s' := update_channels s (coordinator_node s) in
          let k := route_to_agent s' in
          match coordinator_path_map k with
          | Some END => Done s'
          | Some (To m) => graph_run reg f m s'
          | None => Crashed (KeyError k)
          end
      | AgentNode a =>
          let s' := update_channels s (agent_node reg a s) in
          let k := determine_next_agent s' in
          match agent_path_map k with
          | Some END => Done s'
          | Some (To m) => graph_run reg f m s'
          | None => Crashed (KeyError k)
          end
      end
  end.

(** ** [execute_workflow] *)

(** The fields of [_generate_execution_report] that the run determines. *)
Record ExecutionReport := mkReport {
  report_workflow_type : option string;
  total_agents_executed : nat;
  report_error_count : Z
}.

Definition generate_execution_report (s : AgentState) : ExecutionReport :=
  mkReport s.(workflow_type) (length (pick s.(completed_agents) []))
           (pick s.(error_count) 0%Z).

(** The returned dict: [success], [error] (the caught exception),
    [execution_report] and [final_state]. *)
Record WorkflowResult := mkResult {
  success : bool;
  result_error : option RunError;
  execution_report : option ExecutionReport;
  final_state : option AgentState
}.

(** [AgentState(messages=[], ..., workflow_type=..., user_input=...)]: the
    dict [execute_workflow] builds.  Its [user_id], [session_id],
    [session_start_time] and [user_input] are not modelled: no node and no
    branch function of the model reads them. *)
Definition initial_state (wt : string) : AgentState :=
  mkState [] (Some wt) None None None None None None None None None.

(** [execute_workflow]: [ainvoke] keeps the channels of the initial dict,
    the graph is entered at ["coordinator"] (the edge from [START]), and any
    exception of the run is caught. *)
Definition execute_workflow (reg : Registry) (wt : string) : WorkflowResult :=
  match graph_run reg recursion_limit CoordinatorNode (channels (initial_state wt)) with
  | Done s => mkResult true None (Some (generate_execution_report s)) (Some s)
  | Crashed e => mkResult false (Some e) None None
  end.

(** ** Agent stubs *)

(** An [AIMessage] whose single tool call is the handoff marker
    [transfer_to_<target>]. *)
Definition handoff_message (target : string) : Message :=
  mkMessage AI "" (Some [mkToolCall ("transfer_to_" ++ target) "call_0" "{}"]).


(** Every agent appends a handoff marker naming [target]. *)
Definition handoff_registry (target : string) : Registry :=
  fun _ s => mkDelta (Some (s.(messages) ++ [handoff_message target])%list)
                     None None None None None None None None None None.

(** Every agent succeeds at once with a plain answer and no handoff. *)
Definition immediate_success_registry : Registry :=
  fun _ s => mkDelta (Some (s.(messages) ++ [AIMessage "done"])%list)
                     None None None None None None None None None None.


(** ** The workflow catalog and the callers of [execute_workflow] *)

Definition all_workflow_types : list WorkflowType :=
  [JOB_SEARCH; RESUME_ANALYSIS; SKILL_ANALYSIS; RESUME_OPTIMIZATION;
   COMPREHENSIVE].

(** An entry of [get_available_workflows]: its [type] and
    [agents_involved]. *)
Record WorkflowInfo := mkWorkflowInfo {
  wi_type : WorkflowType;
  wi_agents_involved : list string
}.

(** [AgentCoordinator.get_available_workflows] *)
Definition get_available_workflows : list WorkflowInfo :=
  [mkWorkflowInfo JOB_SEARCH ["job_search_agent"];
   mkWorkflowInfo RESUME_ANALYSIS ["resume_critic_agent"];
   mkWorkflowInfo SKILL_ANALYSIS ["skill_heatmap_agent"];
   mkWorkflowInfo RESUME_OPTIMIZATION ["resume_rewrite_agent"];
   mkWorkflowInfo COMPREHENSIVE
     ["job_search_agent"; "resume_critic_agent"; "skill_heatmap_agent";
      "resume_rewrite_agent"]].

(** A state of a run of workflow [w] with the given [completed_agents] and
    no other key than [messages]. *)
Definition catalog_state (w : WorkflowType) (completed : list string)
  : AgentState :=
  mkState [] (Some (workflow_value w)) None None (Some completed) None None
          None None None None.

(** [workflow_map.get(agent_type, WorkflowType.JOB_SEARCH)] in
    [handle_agent_request] (api/chat.py). *)
Definition workflow_map_get (agent_type : string) : WorkflowType :=
  if String.eqb agent_type "job_search" then JOB_SEARCH
  else if String.eqb agent_type "resume_analysis" then RESUME_ANALYSIS
  else if String.eqb agent_type "skill_analysis" then SKILL_ANALYSIS
  else if String.eqb agent_type "resume_optimization" then RESUME_OPTIMIZATION
  else if String.eqb agent_type "comprehensive" then COMPREHENSIVE
  else JOB_SEARCH.

Definition backslash : ascii := ascii_of_nat 92.
Definition squote : ascii := ascii_of_nat 39.
Definition dquote : ascii := ascii_of_nat 34.

Definition has_char (c : ascii) (s : string) : bool :=
  existsb (Ascii.eqb c) (list_ascii_of_string s).

Definition hex_char (n : nat) : ascii :=
  ascii_of_nat (if Nat.ltb n 10 then 48 + n else 87 + n).

(** The characters of [repr(s)] between its quotes [q]: the quote and the
    backslash are escaped, tab, newline and carriage return are written
    with a backslash and t, n, r, the other control characters as a
    backslash, x and two lowercase hex digits; the printable ASCII
    characters, and the bytes of non-ASCII characters, are kept. *)
Fixpoint repr_chars (q : ascii) (s : string) : string :=
  match s with
  | EmptyString => EmptyString
  | String c r =>
      let n := nat_of_ascii c in
      let rest := repr_chars q r in
      if (Ascii.eqb c q || Ascii.eqb c backslash)%bool then
        String backslash (String c rest)
      else if Nat.eqb n 9 then String backslash (String "t" rest)
      else if Nat.eqb n 10 then String backslash (String "n" rest)
      else if Nat.eqb n 13 then String backslash (String "r" rest)
      else if (Nat.ltb n 32 || Nat.eqb n 127)%bool then
        String backslash (String "x" (String (hex_char (Nat.div n 16))
                                        (String (hex_char (Nat.modulo n 16)) rest)))
      else String c rest
  end.

(** Python's [repr] of a string: in single quotes, or in double quotes when
    the string contains a single quote and no double quote.  Exact on ASCII
    strings; a non-ASCII character is kept as is, which [repr] does only
    for the printable ones. *)
Definition py_repr (s : string) : string :=
  let q := if (has_char squote s && negb (has_char dquote s))%bool
           then dquote else squote in
  String q (repr_chars q s ++ String q EmptyString).

Definition ascii_only (s : string) : bool :=
  forallb (fun c => Nat.ltb (nat_of_ascii c) 128) (list_ascii_of_string s).

(** [WorkflowType(value)]: lookup by value; otherwise [ValueError] with
    the message ["%r is not a valid %s" % (value, "WorkflowType")]. *)
Definition parse_workflow_type (v : string) : Exc WorkflowType :=
  if String.eqb v "job_search" then Ok JOB_SEARCH
  else if String.eqb v "resume_analysis" then Ok RESUME_ANALYSIS
  else if String.eqb v "skill_analysis" then Ok SKILL_ANALYSIS
  else if String.eqb v "resume_optimization" then Ok RESUME_OPTIMIZATION
  else if String.eqb v "comprehensive" then Ok COMPREHENSIVE
  else Raise (py_repr v ++ " is not a valid WorkflowType").

(** The messages the WebSocket handlers of api/chat.py send to the user. *)
Inductive WsMessage :=
| AgentProcessing (agent_type : string)
| AgentResponse (agent_type : string) (ok : bool) (err : option RunError)
| AgentError (msg : string)
| WorkflowStarted (wt : WorkflowType)
| WorkflowCompleted (wt : WorkflowType) (ok : bool) (err : option RunError)
| WorkflowErrorMsg (msg : string).



(** [handle_workflow_request]: [wt_field] is
    [context_data.get("workflow_type")]. *)
Definition handle_workflow_request (reg : Registry) (uid : Exc Z)
    (wt_field : option string) : list WsMessage :=
  match parse_workflow_type (pick wt_field "job_search") with
  | Raise e => [WorkflowErrorMsg ("工作流执行失败 / Workflow execution failed: " ++ e)]
  | Ok w =>
      match uid with
      | Raise e =>
          [WorkflowStarted w;
           WorkflowErrorMsg ("工作流执行失败 / Workflow execution failed: " ++ e)]
      | Ok _ =>
          let result := execute_workflow reg (workflow_value w) in
          [WorkflowStarted w;
           WorkflowCompleted w (success result) (result_error result)]
      end
  end.

(** The answer of the [POST /execute] endpoint (api/agents.py). *)
Inductive ApiResult :=
| HttpError (code : Z) (detail : string)
| WorkflowResponse (ok : bool) (wt : WorkflowType) (err : option RunError)
    (report : option ExecutionReport).

(** The [POST /execute] handler, on a request whose [workflow_type] field
    has been parsed into a [WorkflowType]. *)
Definition api_execute_workflow (reg : Registry) (w : WorkflowType) : ApiResult :=
  if negb (str_in (workflow_value w) (map workflow_value all_workflow_types))
  then HttpError 400 ("不支持的工作流类型 / Unsupported workflow type: " ++ workflow_value w)
  else
    let result := execute_workflow reg (workflow_value w) in
    WorkflowResponse (success result) w (result_error result)
                     (execution_report result).

(** [pat in s] for strings *)
Fixpoint contains (pat s : string) : bool :=
  match s with
  | EmptyString => String.prefix pat s
  | String _ s' => String.prefix pat s || contains pat s'
  end.

(** ** Basic facts *)

Lemma str_in_spec (x : string) (l : list string) :
  str_in x l = true <-> In x l.
Proof.
  unfold str_in. rewrite existsb_exists. split.
  - intros [y [Hy Heq]]. apply String.eqb_eq in Heq. subst. exact Hy.
  - intros H. exists x. split; [exact H | apply String.eqb_refl].
Qed.

Lemma last_message_snoc (s : AgentState) (l : list Message) (m : Message) :
  messages s = (l ++ [m])%list -> last_message s = Some m.
Proof.
  intros H. unfold last_message. rewrite H, rev_app_distr. reflexivity.
Qed.

Lemma run_agent_step (reg : Registry) (n : nat) (a : AgentName) (s : AgentState) :
  run reg (S n) (AgentNode a) s =
  match agent_path_map (determine_next_agent (agent_node reg a s)) with
  | Some END => Done (agent_node reg a s)
  | Some (To m) => run reg n m (agent_node reg a s)
  | None => Crashed (KeyError (determine_next_agent (agent_node reg a s)))
  end.
Proof. reflexivity. Qed.

Lemma agent_path_map_agent (a : AgentName) :
  agent_path_map (agent_key a) = Some (To (AgentNode a)).
Proof. destruct a; reflexivity. Qed.

(** ** The channel-filtered run *)

Lemma add_messages_extend (l new : list Message) :
  add_messages l (l ++ new)%list = (l ++ new)%list.
Proof.
  induction l as [| m l IH]; [reflexivity |].
  unfold add_messages in *. simpl. rewrite IH. reflexivity.
Qed.

Lemma pick_opt_same {A} (x : option A) : pick_opt x x = x.
Proof. destruct x; reflexivity. Qed.

(** The coordinator's result writes back the channels it read: its only
    write, [next_agent], is not a channel. *)
Lemma update_channels_coordinator (s : AgentState) :
  update_channels s (coordinator_node s) = channels s.
Proof.
  assert (Hm : messages (coordinator_node s) = messages s /\
                search_query (coordinator_node s) = search_query s /\
                job_results (coordinator_node s) = job_results s).
  { unfold coordinator_node.
    repeat match goal with
           | |- context [if ?c then _ else _] => destruct c
           end; repeat split. }
  destruct Hm as [H1 [H2 H3]].
  unfold update_channels, channels. rewrite H1, H2, H3.
  rewrite <- (app_nil_r (messages s)) at 2.
  rewrite add_messages_extend, app_nil_r, !pick_opt_same. reflexivity.
Qed.


(** A step of the coordinator always ends the run: [_route_to_agent] reads
    the channels, which never hold [next_agent]. *)
Lemma graph_coordinator_step (reg : Registry) (n : nat) (s : AgentState) :
  graph_run reg (S n) CoordinatorNode s = Done (channels s).
Proof.
  change (graph_run reg (S n) CoordinatorNode s) with
    (match coordinator_path_map
             (route_to_agent (update_channels s (coordinator_node s))) with
     | Some END => Done (update_channels s (coordinator_node s))
     | Some (To m) => graph_run reg n m (update_channels s (coordinator_node s))
     | None => Crashed (KeyError (route_to_agent
                                    (update_channels s (coordinator_node s))))
     end).
  rewrite update_channels_coordinator. reflexivity.
Qed.

(** Every call of [execute_workflow] ends after the coordinator step, with
    no agent run. *)
Lemma execute_workflow_result (reg : Registry) (wt : string) :
  execute_workflow reg wt =
  mkResult true None (Some (mkReport None 0 0%Z))
           (Some (channels (initial_state wt))).
Proof.
  unfold execute_workflow. change recursion_limit with (S 24).
  rewrite graph_coordinator_step. reflexivity.
Qed.

(** The fixed order of the comprehensive workflow. *)
Definition comprehensive_order : list string :=
  ["job_search_agent"; "resume_critic_agent"; "skill_heatmap_agent";
   "resume_rewrite_agent"].


(** ** C10: a missing routing decision ends the run *)

(** C10: when the state reaching [_route_to_agent] has no [next_agent] key,
    routing returns ["end"], which the coordinator's path map sends to [END]:
    the run ends through the normal exit, no error is raised. *)
Theorem route_to_agent_missing_ends (s : AgentState)
  (Hnone : next_agent s = None) :
  route_to_agent s = "end" /\ coordinator_path_map (route_to_agent s) = Some END.
Proof.
  unfold route_to_agent. rewrite Hnone. split; reflexivity.
Qed.

Lemma route_to_agent_missing_ends_witness :
  next_agent (initial_state "job_search") = None /\
  route_to_agent (initial_state "job_search") = "end" /\
  coordinator_path_map (route_to_agent (initial_state "job_search")) = Some END.
Proof.
  split; [reflexivity |].
  apply (route_to_agent_missing_ends (initial_state "job_search")).
  reflexivity.
Defined.

(** ** C8: the comprehensive workflow *)

(** C8: under the comprehensive workflow the coordinator selects the first
    agent of the order job_search_agent, resume_critic_agent,
    skill_heatmap_agent, resume_rewrite_agent missing from
    [completed_agents], and ["end"] exactly when all four are present; the
    completion check is the error-ceiling test or'ed with "all four agents
    are in [completed_agents]", so below the ceiling it holds exactly when
    all four are present. *)
Theorem comprehensive_flow_order (s : AgentState)
  (Hwt : workflow_type s = Some (workflow_value COMPREHENSIVE)) :
  let completed := pick (completed_agents s) [] in
  next_agent (coordinator_node s) = Some (determine_comprehensive_flow s) /\
  determine_comprehensive_flow s =
    match find (fun a => negb (str_in a completed)) comprehensive_order with
    | Some a => a
    | None => "end"
    end /\
  (determine_comprehensive_flow s = "end" <->
     forall a, In a comprehensive_order -> In a completed) /\
  is_workflow_complete s =
    ((5 <? pick (error_count s) 0)%Z ||
     forallb (fun a => str_in a completed) comprehensive_order)%bool /\
  ((pick (error_count s) 0 <= 5)%Z ->
     (is_workflow_complete s = true <->
      forall a, In a comprehensive_order -> In a completed)).
Proof.
  intros completed.
  assert (Hall : forallb (fun a => str_in a completed) comprehensive_order = true
                 <-> forall a, In a comprehensive_order -> In a completed).
  { rewrite forallb_forall. split; intros H a Ha; apply str_in_spec; apply H;
    exact Ha. }
  assert (Hcomp : is_workflow_complete s =
    ((5 <? pick (error_count s) 0)%Z ||
     forallb (fun a => str_in a completed) comprehensive_order)%bool).
  { unfold is_workflow_complete. rewrite Hwt. simpl.
    destruct (5 <? pick (error_count s) 0)%Z; reflexivity. }
  split; [| split; [| split; [| split]]].
  - unfold coordinator_node. rewrite Hwt. reflexivity.
  - unfold determine_comprehensive_flow. fold completed. simpl.
    destruct (str_in "job_search_agent" completed); simpl; [| reflexivity].
    destruct (str_in "resume_critic_agent" completed); simpl; [| reflexivity].
    destruct (str_in "skill_heatmap_agent" completed); simpl; [| reflexivity].
    destruct (str_in "resume_rewrite_agent" completed); reflexivity.
  - rewrite <- Hall. unfold determine_comprehensive_flow. fold completed.
    simpl.
    destruct (str_in "job_search_agent" completed); simpl;
      [| split; discriminate].
    destruct (str_in "resume_critic_agent" completed); simpl;
      [| split; discriminate].
    destruct (str_in "skill_heatmap_agent" completed); simpl;
      [| split; discriminate].
    destruct (str_in "resume_rewrite_agent" completed); simpl;
      split; congruence.
  - exact Hcomp.
  - intros Hle. rewrite Hcomp, <- Hall.
    replace (5 <? pick (error_count s) 0)%Z with false
      by (symmetry; apply Z.ltb_ge; exact Hle).
    reflexivity.
Qed.

Definition comprehensive_sample : AgentState :=
  mkState [] (Some "comprehensive") None None
          (Some ["job_search_agent"; "skill_heatmap_agent"]) None None None
          None None None.

Lemma comprehensive_flow_order_witness :
  workflow_type comprehensive_sample = Some (workflow_value COMPREHENSIVE) /\
  determine_comprehensive_flow comprehensive_sample = "resume_critic_agent" /\
  is_workflow_complete comprehensive_sample = false.
Proof.
  pose proof (comprehensive_flow_order comprehensive_sample eq_refl) as H.
  split; [reflexivity |].
  destruct H as [_ [H _]]. split; [exact H | reflexivity].
Defined.

(** ** C7: the error ceiling *)





(** ** C6: handoff precedence *)

(** C6 (as amended): when the first [transfer_to_] tool call of the last
    message after an agent step names a registered agent [x], routing
    returns [x] and the next node executed is [x], whatever the completion
    check and the coordinator would decide. *)
Theorem handoff_target_wins (reg : Registry) (n : nat) (a x : AgentName)
  (s : AgentState)
  (H : handoff_target (agent_node reg a s) = Some (agent_key x)) :
  determine_next_agent (agent_node reg a s) = agent_key x /\
  run reg (S n) (AgentNode a) s = run reg n (AgentNode x) (agent_node reg a s).
Proof.
  assert (Hd : determine_next_agent (agent_node reg a s) = agent_key x).
  { unfold determine_next_agent. rewrite H. reflexivity. }
  split; [exact Hd |].
  rewrite run_agent_step, Hd, agent_path_map_agent. reflexivity.
Qed.

Lemma handoff_target_wins_witness :
  run (handoff_registry "resume_critic_agent") 1 (AgentNode JobSearchA)
      (initial_state "job_search") =
  run (handoff_registry "resume_critic_agent") 0 (AgentNode ResumeCriticA)
      (agent_node (handoff_registry "resume_critic_agent") JobSearchA
         (initial_state "job_search")).
Proof.
  apply (handoff_target_wins (handoff_registry "resume_critic_agent") 0
           JobSearchA ResumeCriticA (initial_state "job_search")).
  vm_compute. reflexivity.
Defined.

(** A last message carrying two handoff markers. *)
Definition two_marker_state : AgentState :=
  mkState [mkMessage AI ""
             (Some [mkToolCall "transfer_to_resume_critic_agent" "call_0" "{}";
                    mkToolCall "transfer_to_job_search_agent" "call_1" "{}"])]
          (Some "job_search") None None None None None None None None None.

(** C6 as stated fails: the last message contains a tool call named
    [transfer_to_job_search_agent], yet routing selects the agent of the
    first marker. *)
Lemma handoff_first_marker_only :
  (exists m, last_message two_marker_state = Some m /\
     exists tcs, msg_tool_calls m = Some tcs /\
       In "transfer_to_job_search_agent" (map tc_name tcs)) /\
  determine_next_agent two_marker_state = "resume_critic_agent".
Proof.
  split; [| vm_compute; reflexivity].
  eexists. split; [reflexivity |].
  eexists. split; [reflexivity |]. simpl. right. left. reflexivity.
Qed.

(** ** C5: unknown handoff targets *)





(** ** C1: self-handoff loops *)






(** ** C9: the transcript only grows *)

Lemma process_response_messages (ag : BaseAgent) (r : list Block)
  (s : AgentState) (d : Delta) :
  process_response ag r s = Ok d ->
  exists new, d_messages d = Some (messages s ++ new)%list.
Proof.
  unfold process_response.
  destruct (tool_uses r) as [| tc tcs]; simpl.
  - intros H. inversion H; subst. simpl. eexists. reflexivity.
  - destruct (processor ag [] _); simpl; intros H; inversion H; subst.
    simpl. eexists. reflexivity.
Qed.

Lemma invoke_messages (ag : BaseAgent) (s : AgentState) :
  exists new, d_messages (invoke ag s) = Some (messages s ++ new)%list.
Proof.
  unfold invoke. destruct (invoke_body ag s) as [d | e] eqn:E.
  - unfold invoke_body in E. destruct (processor ag _ _); simpl in E.
    + exact (process_response_messages _ _ _ _ E).
    + discriminate.
  - simpl. eexists. reflexivity.
Qed.

Lemma job_search_invoke_messages (js : JobSearchAgent) (s : AgentState) :
  exists new, d_messages (job_search_invoke js s) = Some (messages s ++ new)%list.
Proof.
  unfold job_search_invoke.
  destruct (job_search_invoke_body js s) as [d | e] eqn:E.
  - unfold job_search_invoke_body in E.
    destruct (js_search_tool js) as [tool | ?]; simpl in E; [| discriminate].
    match type of E with
    | exc_bind ?m _ = _ => destruct m as [ag | ?]; simpl in E; [| discriminate]
    end.
    match type of E with
    | (if ?c then _ else _) = _ => destruct c
    end.
    + inversion E; subst. simpl. eexists. reflexivity.
    + destruct (invoke_messages ag s) as [new Hnew].
      destruct (js_cache_jobs js _); inversion E; subst; simpl;
        exists new; exact Hnew.
  - simpl. eexists. reflexivity.
Qed.

(** C9: every agent invocation returns a [messages] value that extends the
    input state's [messages]: on the success path and on the caught-error
    path of [BaseAgent.invoke] and of [JobSearchAgent.invoke], and therefore
    in the state each agent node produces. *)
Theorem invoke_extends_messages :
  (forall (ag : BaseAgent) (s : AgentState),
     exists new, d_messages (invoke ag s) = Some (messages s ++ new)%list) /\
  (forall (js : JobSearchAgent) (s : AgentState),
     exists new, d_messages (job_search_invoke js s) = Some (messages s ++ new)%list) /\
  (forall (js : JobSearchAgent) (rc sh rr : BaseAgent) (a : AgentName)
          (s : AgentState),
     exists new,
       messages (agent_node (source_registry js rc sh rr) a s) =
       (messages s ++ new)%list).
Proof.
  split; [exact invoke_messages | split; [exact job_search_invoke_messages |]].
  intros js rc sh rr a s.
  assert (Hd : exists new,
             d_messages (source_registry js rc sh rr a s) =
             Some (messages s ++ new)%list).
  { destruct a; simpl;
      [apply job_search_invoke_messages | apply invoke_messages
      | apply invoke_messages | apply invoke_messages]. }
  destruct Hd as [new Hnew]. exists new.
  unfold agent_node, merge. rewrite Hnew. reflexivity.
Qed.

(** ** C2: agent failures *)

(** An agent whose Processor call always raises. *)
Definition failing_agent : BaseAgent :=
  mkAgent "resume_critic_agent" (fun _ _ => Raise "timeout") [].

(** C2 (code defect): an exception of the Processor is caught by [invoke],
    which returns the input messages followed by the error message and an
    ["error"] key, but no [error_count] key, so the merged state keeps its
    error count.  Nor could a count survive to the next node: [error_count]
    is not a channel of the graph, so it is dropped from every agent step's
    result. *)
Theorem agent_failure_not_counted :
  (forall (ag : BaseAgent) (s : AgentState) (e : string),
     invoke_body ag s = Raise e ->
     d_messages (invoke ag s) =
       Some (messages s ++ [AIMessage (invoke_error_text ++ e)])%list /\
     d_error (invoke ag s) = Some e /\
     d_error_count (invoke ag s) = None /\
     error_count (merge s (invoke ag s)) = error_count s) /\
  invoke failing_agent (initial_state "resume_analysis") =
    mkDelta (Some [AIMessage (invoke_error_text ++ "timeout")])
            None None None None None (Some "timeout") None None None None /\
  (forall (reg : Registry) (a : AgentName) (s : AgentState),
     error_count (update_channels s (agent_node reg a s)) = None).
Proof.
  split; [| split; [vm_compute; reflexivity | reflexivity]].
  intros ag s e H. unfold invoke. rewrite H. repeat split.
Qed.

(** ** C3: completed agents *)

Lemma invoke_completed (ag : BaseAgent) (s : AgentState) :
  pick_opt (d_completed_agents (invoke ag s)) (completed_agents s) =
  completed_agents s.
Proof.
  unfold invoke. destruct (invoke_body ag s) as [d | e] eqn:E; [| reflexivity].
  unfold invoke_body in E. destruct (processor ag _ _) as [r | ?]; simpl in E;
    [| discriminate].
  revert E. unfold process_response.
  destruct (tool_uses r); simpl.
  - intros E. inversion E; subst. simpl.
    destruct (completed_agents s); reflexivity.
  - destruct (processor ag [] _); simpl; intros E; inversion E; subst. simpl.
    destruct (completed_agents s); reflexivity.
Qed.

Lemma job_search_invoke_completed (js : JobSearchAgent) (s : AgentState) :
  pick_opt (d_completed_agents (job_search_invoke js s)) (completed_agents s) =
  completed_agents s.
Proof.
  unfold job_search_invoke.
  destruct (job_search_invoke_body js s) as [d | e] eqn:E; [| reflexivity].
  unfold job_search_invoke_body in E.
  destruct (js_search_tool js) as [tool | ?]; simpl in E; [| discriminate].
  match type of E with
  | exc_bind ?m _ = _ => destruct m as [ag | ?]; simpl in E; [| discriminate]
  end.
  match type of E with
  | (if ?c then _ else _) = _ => destruct c
  end.
  - inversion E; subst. reflexivity.
  - pose proof (invoke_completed ag s) as Hc.
    destruct (js_cache_jobs js _); inversion E; subst; exact Hc.
Qed.

Lemma coordinator_node_completed (s : AgentState) :
  completed_agents (coordinator_node s) = completed_agents s.
Proof.
  unfold coordinator_node.
  repeat match goal with
         | |- context [if ?c then _ else _] => destruct c
         end; reflexivity.
Qed.

(** C3 (code defect): no node of the graph appends to [completed_agents]:
    the agent nodes built from the source's agents and the coordinator node
    leave it as it was, and it is not a channel of the graph, so it is
    dropped from every node's result.  A JOB_SEARCH run whose agent would
    succeed at once executes no agent step at all: the coordinator's step
    ends the run, and the report counts zero executed agents, with
    [completed_agents] absent from the final state. *)
Theorem completed_agents_never_recorded :
  (forall (js : JobSearchAgent) (rc sh rr : BaseAgent) (a : AgentName)
          (s : AgentState),
     completed_agents (agent_node (source_registry js rc sh rr) a s) =
     completed_agents s) /\
  (forall s : AgentState, completed_agents (coordinator_node s) = completed_agents s) /\
  (forall (a : AgentName) (s : AgentState),
     completed_agents (update_channels s (agent_node immediate_success_registry a s))
     = None) /\
  execute_workflow immediate_success_registry "job_search" =
    mkResult true None (Some (mkReport None 0 0%Z))
             (Some (channels (initial_state "job_search"))) /\
  completed_agents (channels (initial_state "job_search")) = None.
Proof.
  split; [| split; [exact coordinator_node_completed | split; [reflexivity |]]].
  2: { split; [apply execute_workflow_result | reflexivity]. }
  intros js rc sh rr a s. unfold agent_node, merge. simpl.
  destruct a; simpl;
    [apply job_search_invoke_completed | apply invoke_completed
    | apply invoke_completed | apply invoke_completed].
Qed.

(** ** C4: workflow types outside the catalog *)



(** ** Further properties of the agent invocation *)

(** [_build_messages] never returns an empty list and always starts with a
    user message. *)
Theorem build_messages_starts_with_user (s : AgentState) :
  exists m rest, build_messages s = m :: rest /\ api_role m = "user".
Proof.
  unfold build_messages.
  destruct (messages s) as [| m ms]; simpl.
  - eexists. eexists. split; reflexivity.
  - destruct (match msg_role m with Human => "user" | _ => "assistant" end
              =? "user") eqn:E.
    + eexists. eexists. split; [reflexivity |]. simpl.
      apply String.eqb_eq in E. exact E.
    + eexists. eexists. split; reflexivity.
Qed.

(** On a non-empty transcript, [_build_messages] sends every message of the
    state, in order, with [HumanMessage] as role "user" and the others as
    "assistant", preceded by a "开始处理" user message exactly when the first
    one is not a [HumanMessage]. *)
Theorem build_messages_keeps_transcript (s : AgentState) (m : Message)
  (ms : list Message) (Hm : messages s = m :: ms) :
  let conv := fun m => mkApi (match msg_role m with Human => "user" | _ => "assistant" end)
                             (CText (msg_content m)) in
  (msg_role m = Human -> build_messages s = map conv (m :: ms)) /\
  (msg_role m <> Human ->
   build_messages s = mkApi "user" (CText "开始处理") :: map conv (m :: ms)).
Proof.
  intros conv. unfold build_messages. rewrite Hm. simpl.
  split; intros H.
  - subst conv. simpl. rewrite H. reflexivity.
  - subst conv. simpl.
    destruct (msg_role m); [contradiction | reflexivity ..].
Qed.

Definition one_answer_state : AgentState :=
  merge (initial_state "job_search")
        (immediate_success_registry JobSearchA (initial_state "job_search")).

Lemma build_messages_keeps_transcript_witness :
  messages one_answer_state = [AIMessage "done"] /\
  (msg_role (AIMessage "done") <> Human ->
   build_messages one_answer_state =
     [mkApi "user" (CText "开始处理"); mkApi "assistant" (CText "done")]).
Proof.
  split; [reflexivity |].
  apply (build_messages_keeps_transcript one_answer_state (AIMessage "done") []).
  reflexivity.
Defined.

(** [_execute_tools] returns one result per tool call, in the order of the
    calls, each computed from its own call only: a missing tool gives
    "未找到工具: <name>", a tool that raises gives "工具执行错误: <error>",
    and neither stops the other calls. *)
Theorem execute_tools_per_call (ag : BaseAgent)
  (tcs : list (string * string * string)) :
  length (execute_tools ag tcs) = length tcs /\
  (forall i, nth_error (execute_tools ag tcs) i =
             option_map (execute_tool ag) (nth_error tcs i)) /\
  (forall i n x, find_tool n (tools ag) = None ->
     execute_tool ag (i, n, x) = "未找到工具: " ++ n) /\
  (forall i n x t e, find_tool n (tools ag) = Some t -> t x = Raise e ->
     execute_tool ag (i, n, x) = "工具执行错误: " ++ e) /\
  (forall i n x t r, find_tool n (tools ag) = Some t -> t x = Ok r ->
     execute_tool ag (i, n, x) = r).
Proof.
  unfold execute_tools.
  split; [apply length_map |].
  split; [intros i; apply nth_error_map |].
  split; [intros i n x H; simpl; rewrite H; reflexivity |].
  split; [intros i n x t e H Ht; simpl; rewrite H, Ht; reflexivity |].
  intros i n x t r H Ht; simpl; rewrite H, Ht; reflexivity.
Qed.

(** [find_tool] (the [next(...)] lookup of [_execute_tools]) returns the
    first tool registered under the name. *)
Theorem find_tool_first (n : string) (ts : list (string * (string -> Exc string)))
  (t : string -> Exc string) :
  find_tool n ts = Some t <->
  exists pre post, ts = (pre ++ (n, t) :: post)%list /\ ~ In n (map fst pre).
Proof.
  induction ts as [| [n' t'] ts IH]; simpl.
  - split; [discriminate |].
    intros [pre [post [H _]]]. destruct pre; discriminate.
  - destruct (n' =? n) eqn:E.
    + apply String.eqb_eq in E. subst n'. split.
      * intros H. inversion H; subst. exists [], ts. split; [reflexivity | simpl; tauto].
      * intros [pre [post [H Hn]]]. destruct pre as [| [p tp] pre]; simpl in *.
        -- inversion H. reflexivity.
        -- inversion H; subst. exfalso. apply Hn. left. reflexivity.
    + apply String.eqb_neq in E. rewrite IH. split.
      * intros [pre [post [H Hn]]]. exists ((n', t') :: pre), post.
        split; [rewrite H; reflexivity |]. simpl. intros [Heq | Hin]; auto.
      * intros [pre [post [H Hn]]]. destruct pre as [| [p tp] pre]; simpl in *.
        -- inversion H. congruence.
        -- inversion H; subst. exists pre, post. split; [reflexivity |].
           intros Hin. apply Hn. right. exact Hin.
Qed.

(** When the Processor's answer has no [tool_use] block, [invoke] makes a
    single Processor call and cannot fail after it: it appends the answer's
    text (nothing when it is empty), sets [last_response] to that text or
    "工具调用完成" when empty, and leaves [tool_results] and [error] as they
    were. *)
Theorem invoke_without_tool_use (ag : BaseAgent) (s : AgentState)
  (r : list Block)
  (Hp : processor ag (prepare_tool_definitions ag) (build_messages s) = Ok r)
  (Hnt : tool_uses r = []) :
  d_messages (invoke ag s) =
    Some (messages s ++ text_message (response_text r))%list /\
  d_last_response (invoke ag s) =
    Some (if String.eqb (response_text r) "" then "工具调用完成"
          else response_text r) /\
  d_tool_results (invoke ag s) = tool_results s /\
  d_error (invoke ag s) = error s.
Proof.
  unfold invoke, invoke_body. rewrite Hp. simpl.
  unfold process_response. rewrite Hnt. simpl.
  repeat split.
Qed.

(** An agent answering a fixed text and having no tools. *)
Definition echo_agent (t : string) : BaseAgent :=
  mkAgent "resume_critic_agent" (fun _ _ => Ok [TextBlock t]) [].

Lemma invoke_without_tool_use_witness :
  d_messages (invoke (echo_agent "ok") (initial_state "resume_analysis")) =
    Some [AIMessage "ok"].
Proof.
  destruct (invoke_without_tool_use (echo_agent "ok")
              (initial_state "resume_analysis") [TextBlock "ok"]
              eq_refl eq_refl) as [H _].
  rewrite H. reflexivity.
Defined.

(** When the answer asks for tools and the follow-up Processor call (made
    without tools) raises [e], the whole invocation takes the error path:
    the text of the first answer and the tool results are dropped, and only
    the error message is appended. *)
Theorem invoke_followup_failure (ag : BaseAgent) (s : AgentState)
  (r : list Block) (e : string)
  (Hp : processor ag (prepare_tool_definitions ag) (build_messages s) = Ok r)
  (Ht : tool_uses r <> [])
  (Hf : forall msgs, processor ag [] msgs = Raise e) :
  invoke ag s =
  mkDelta (Some (messages s ++ [AIMessage (invoke_error_text ++ e)])%list)
          None None None None None (Some e) None None None None.
Proof.
  unfold invoke, invoke_body. rewrite Hp. simpl.
  unfold process_response.
  destruct (tool_uses r) as [| tc tcs]; [contradiction |]. simpl.
  rewrite Hf. reflexivity.
Qed.

(** An agent with one tool, whose first answer calls it and whose follow-up
    call (without tools) fails. *)
Definition followup_failing_agent : BaseAgent :=
  mkAgent "skill_heatmap_agent"
    (fun tdefs _ => match tdefs with
                    | [] => Raise "overloaded"
                    | _ => Ok [TextBlock "calling"; ToolUseBlock "t1" "lookup" "{}"]
                    end)
    [("lookup", fun _ => Ok "42")].

Lemma invoke_followup_failure_witness :
  invoke followup_failing_agent (initial_state "skill_analysis") =
  mkDelta (Some [AIMessage (invoke_error_text ++ "overloaded")])
          None None None None None (Some "overloaded") None None None None.
Proof.
  apply (invoke_followup_failure followup_failing_agent
           (initial_state "skill_analysis")
           [TextBlock "calling"; ToolUseBlock "t1" "lookup" "{}"] "overloaded");
    [reflexivity | discriminate | intros msgs; reflexivity].
Defined.

Lemma invoke_keeps_keys_ok (ag : BaseAgent) (s : AgentState) (d : Delta) :
  invoke_body ag s = Ok d ->
  d_workflow_type d = workflow_type s /\ d_next_agent d = next_agent s /\
  d_current_agent d = current_agent s /\
  d_completed_agents d = completed_agents s /\
  d_error_count d = error_count s /\ d_search_query d = search_query s /\
  d_job_results d = job_results s.
Proof.
  unfold invoke_body. destruct (processor ag _ _) as [r | ?]; simpl;
    [| discriminate].
  unfold process_response.
  destruct (tool_uses r); simpl.
  - intros E. inversion E; subst. simpl. repeat split.
  - destruct (processor ag [] _); simpl; intros E; inversion E; subst.
    simpl. repeat split.
Qed.

(** Merging the result of [invoke] never changes the routing and
    bookkeeping keys of the state: [workflow_type], [next_agent],
    [current_agent], [completed_agents], [error_count], [search_query] and
    [job_results] keep their values, on the success and the error path. *)
Theorem invoke_keeps_routing_keys (ag : BaseAgent) (s : AgentState) :
  let s' := merge s (invoke ag s) in
  workflow_type s' = workflow_type s /\ next_agent s' = next_agent s /\
  current_agent s' = current_agent s /\
  completed_agents s' = completed_agents s /\
  error_count s' = error_count s /\ search_query s' = search_query s /\
  job_results s' = job_results s.
Proof.
  intros s'. subst s'. unfold invoke.
  destruct (invoke_body ag s) as [d | e] eqn:E.
  - destruct (invoke_keeps_keys_ok ag s d E)
      as [H1 [H2 [H3 [H4 [H5 [H6 H7]]]]]].
    unfold merge; simpl. rewrite H1, H2, H3, H4, H5, H6, H7.
    repeat split;
      repeat match goal with |- pick_opt ?x ?x = ?x => destruct x; reflexivity end.
  - repeat split.
Qed.

(** ** Handoff markers: encoding and decoding *)

Lemma replace_aux_absent (fuel : nat) (pat rep s : string) :
  contains pat s = false -> replace_aux fuel pat rep s = s.
Proof.
  revert fuel. induction s as [| c s IH]; intros fuel H; destruct fuel;
    simpl; try reflexivity.
  simpl in H. apply orb_false_iff in H. destruct H as [H1 H2].
  rewrite H1, (IH fuel H2). reflexivity.
Qed.

Lemma substring_0_full (x : string) : substring 0 (String.length x) x = x.
Proof.
  induction x as [| c x IH]; simpl; [reflexivity | rewrite IH; reflexivity].
Qed.

Lemma prefix_app (p x : string) : String.prefix p (p ++ x) = true.
Proof.
  induction p as [| c p IH]; simpl.
  - destruct x; reflexivity.
  - destruct (Ascii.ascii_dec c c) as [_ | Hn]; [exact IH | contradiction].
Qed.

Lemma length_app (p x : string) :
  String.length (p ++ x) = String.length p + String.length x.
Proof. induction p as [| c p IH]; simpl; [reflexivity | rewrite IH; reflexivity]. Qed.

Lemma substring_app (p x : string) :
  substring (String.length p) (String.length x) (p ++ x) = x.
Proof. induction p as [| c p IH]; simpl; [apply substring_0_full | exact IH]. Qed.

Lemma replace_aux_S (f : nat) (pat rep : string) (c : Ascii.ascii) (s : string) :
  replace_aux (S f) pat rep (String c s) =
  if String.prefix pat (String c s)
  then rep ++ replace_aux f pat rep
                (substring (String.length pat)
                   (String.length (String c s) - String.length pat) (String c s))
  else String c (replace_aux f pat rep s).
Proof. reflexivity. Qed.

(** [(pat + x).replace(pat, rep)] is [rep + x] when [pat] does not occur in
    [x]. *)
Lemma replace_leading (pat rep x : string) :
  pat <> EmptyString -> contains pat x = false ->
  replace (pat ++ x) pat rep = rep ++ x.
Proof.
  intros Hp Hx. destruct pat as [| c p]; [contradiction |].
  unfold replace.
  change (String c p ++ x) with (String c (p ++ x)).
  change (String.length (String c (p ++ x))) with (S (String.length (p ++ x))).
  rewrite replace_aux_S.
  change (String c (p ++ x)) with (String c p ++ x).
  rewrite prefix_app.
  replace (String.length (String c p ++ x) - String.length (String c p))
    with (String.length x) by (rewrite length_app; lia).
  rewrite substring_app, replace_aux_absent by exact Hx.
  reflexivity.
Qed.

(** A handoff marker [transfer_to_<x>], for a target [x] in which
    "transfer_to_" does not occur, is decoded by [_determine_next_agent]'s
    [startswith]/[replace] back to [x]. *)
Theorem handoff_marker_roundtrip (s : AgentState) (l : list Message)
  (x : string)
  (Hx : contains "transfer_to_" x = false)
  (Hm : messages s = (l ++ [handoff_message x])%list) :
  handoff_target s = Some x.
Proof.
  unfold handoff_target. rewrite (last_message_snoc s l _ Hm).
  unfold handoff_message. cbn [msg_tool_calls first_transfer tc_name].
  unfold startswith. rewrite prefix_app.
  rewrite replace_leading by (discriminate || exact Hx).
  reflexivity.
Qed.

Lemma handoff_marker_roundtrip_witness :
  handoff_target (merge (initial_state "job_search")
                    (handoff_registry "skill_heatmap_agent" JobSearchA
                       (initial_state "job_search")))
  = Some "skill_heatmap_agent".
Proof.
  apply (handoff_marker_roundtrip _ [] "skill_heatmap_agent");
    vm_compute; reflexivity.
Defined.

(** ** The coordinator node and whole runs *)

Lemma coordinator_choice (s : AgentState) :
  exists v, coordinator_node s = set_next_agent s v /\
            coordinator_path_map v <> None.
Proof.
  unfold coordinator_node.
  destruct (is_wf (workflow_type s) JOB_SEARCH);
    [eexists; split; [reflexivity | discriminate] |].
  destruct (is_wf (workflow_type s) RESUME_ANALYSIS);
    [eexists; split; [reflexivity | discriminate] |].
  destruct (is_wf (workflow_type s) SKILL_ANALYSIS);
    [eexists; split; [reflexivity | discriminate] |].
  destruct (is_wf (workflow_type s) RESUME_OPTIMIZATION);
    [eexists; split; [reflexivity | discriminate] |].
  destruct (is_wf (workflow_type s) COMPREHENSIVE);
    [| eexists; split; [reflexivity | discriminate]].
  eexists; split; [reflexivity |].
  unfold determine_comprehensive_flow.
  repeat match goal with
         | |- context [if ?c then _ else _] => destruct c
         end; discriminate.
Qed.

(** [_coordinator_node] changes nothing but [next_agent], and the value it
    stores is always a key of the coordinator's path map (one of the four
    agent names or "end"), so routing out of the coordinator never fails. *)
Theorem coordinator_node_routes_safely (s : AgentState) :
  exists v, coordinator_node s = set_next_agent s v /\
            route_to_agent (coordinator_node s) = v /\
            coordinator_path_map v <> None.
Proof.
  destruct (coordinator_choice s) as [v [H1 H2]].
  exists v. split; [exact H1 |]. split; [rewrite H1; reflexivity | exact H2].
Qed.




Definition plain (m : Message) : Prop := msg_tool_calls m = Some [].

Lemma text_message_plain (t : string) : Forall plain (text_message t).
Proof.
  unfold text_message. destruct (t =? ""); repeat constructor.
Qed.

Lemma invoke_plain (ag : BaseAgent) (s : AgentState) :
  exists new, d_messages (invoke ag s) = Some (messages s ++ new)%list /\
              Forall plain new.
Proof.
  unfold invoke. destruct (invoke_body ag s) as [d | e] eqn:E.
  - unfold invoke_body in E. destruct (processor ag _ _) as [r | ?]; simpl in E;
      [| discriminate].
    revert E. unfold process_response.
    destruct (tool_uses r); simpl.
    + intros E. inversion E; subst. simpl. eexists. split; [reflexivity |].
      apply text_message_plain.
    + destruct (processor ag [] _); simpl; intros E; inversion E; subst.
      simpl. eexists. split; [reflexivity |].
      apply Forall_app; split; apply text_message_plain.
  - simpl. eexists. split; [reflexivity | repeat constructor].
Qed.

Lemma job_search_invoke_plain (js : JobSearchAgent) (s : AgentState) :
  exists new, d_messages (job_search_invoke js s) = Some (messages s ++ new)%list /\
              Forall plain new.
Proof.
  unfold job_search_invoke.
  destruct (job_search_invoke_body js s) as [d | e] eqn:E.
  - unfold job_search_invoke_body in E.
    destruct (js_search_tool js) as [tool | ?]; simpl in E; [| discriminate].
    match type of E with
    | exc_bind ?m _ = _ => destruct m as [ag | ?]; simpl in E; [| discriminate]
    end.
    match type of E with
    | (if ?c then _ else _) = _ => destruct c
    end.
    + inversion E; subst. simpl. eexists. split; [reflexivity | repeat constructor].
    + destruct (invoke_plain ag s) as [new [Hnew Hp]].
      destruct (js_cache_jobs js _); inversion E; subst; simpl;
        exists new; split; assumption.
  - simpl. eexists. split; [reflexivity | repeat constructor].
Qed.

Lemma handoff_none_after (s s' : AgentState) (new : list Message) :
  messages s' = (messages s ++ new)%list -> Forall plain new ->
  handoff_target s = None -> handoff_target s' = None.
Proof.
  intros Hm Hp Hs.
  destruct new as [| m0 new0] eqn:En.
  - rewrite app_nil_r in Hm. unfold handoff_target, last_message in *.
    rewrite Hm. exact Hs.
  - destruct (exists_last (l := m0 :: new0) ltac:(discriminate)) as [l' [m Hl]].
    rewrite <- En in Hl. subst new.
    rewrite Hl in Hm, Hp.
    apply Forall_app in Hp. destruct Hp as [_ Hp]. inversion Hp as [| ? ? Hpm _]; subst.
    unfold handoff_target.
    rewrite (last_message_snoc s' (messages s ++ l') m)
      by (rewrite Hm, app_assoc; reflexivity).
    unfold plain in Hpm. rewrite Hpm. reflexivity.
Qed.

Lemma source_node_no_marker (js : JobSearchAgent) (rc sh rr : BaseAgent)
  (a : AgentName) (s : AgentState) :
  handoff_target s = None ->
  handoff_target (agent_node (source_registry js rc sh rr) a s) = None.
Proof.
  intros H.
  assert (Hd : exists new,
             d_messages (source_registry js rc sh rr a s) =
             Some (messages s ++ new)%list /\ Forall plain new).
  { destruct a; simpl;
      [apply job_search_invoke_plain | apply invoke_plain
      | apply invoke_plain | apply invoke_plain]. }
  destruct Hd as [new [Hnew Hp]].
  apply (handoff_none_after s _ new); [| exact Hp | exact H].
  unfold agent_node, merge. rewrite Hnew. reflexivity.
Qed.

(** The repository's own agents never produce a handoff marker: every
    message they append is a plain [AIMessage] without tool calls, so when
    the input state's last message carries no marker, neither does the
    state after the agent node. *)
Theorem source_agents_emit_no_handoff (js : JobSearchAgent)
  (rc sh rr : BaseAgent) (a : AgentName) (s : AgentState)
  (H : handoff_target s = None) :
  handoff_target (agent_node (source_registry js rc sh rr) a s) = None.
Proof. exact (source_node_no_marker js rc sh rr a s H). Qed.

(** A job-search agent whose search service is unavailable. *)
Definition offline_job_search : JobSearchAgent :=
  mkJobSearch (echo_agent "ok") (Raise "search service unavailable") false (Ok tt)
              (fun _ => []) (fun _ => Ok tt).

Lemma source_agents_emit_no_handoff_witness :
  handoff_target
    (agent_node (source_registry offline_job_search (echo_agent "a")
                   (echo_agent "b") (echo_agent "c"))
       ResumeCriticA (initial_state "resume_analysis")) = None.
Proof.
  apply source_agents_emit_no_handoff. reflexivity.
Defined.

(** ** The compiled graph at work *)

(** Whatever the registry and whatever channel values the run starts from,
    the compiled graph stops after its first node: the coordinator's
    update leaves the channels as they were, [_route_to_agent] reads no
    [next_agent] in them and answers "end", so no agent node is ever
    entered and the run returns the state it was given. *)
Theorem compiled_graph_stops_at_coordinator (reg : Registry) (n : nat)
  (s : AgentState) :
  update_channels s (coordinator_node s) = channels s /\
  route_to_agent (channels s) = "end" /\
  coordinator_path_map "end" = Some END /\
  graph_run reg (S n) CoordinatorNode s = Done (channels s).
Proof.
  split; [apply update_channels_coordinator |].
  split; [reflexivity |].
  split; [reflexivity |].
  apply graph_coordinator_step.
Qed.

(** ** [JobSearchAgent.invoke]: edge cases *)

Definition search_error_delta (s : AgentState) (e : string) : Delta :=
  mkDelta (Some (s.(messages) ++ [AIMessage ("搜索时发生错误：" ++ e)])%list)
          None None None None None (Some e) None None None (Some []).

(** When [get_search_service()]/[get_search_tool()] raises, or the search
    tool is new and binding it raises, the job-search agent answers with the
    error message appended to the transcript, an empty [job_results] and
    [error] set to the exception text; no other key is returned. *)
Theorem job_search_setup_failure (js : JobSearchAgent) (s : AgentState)
  (e : string)
  (H : js_search_tool js = Raise e \/
       exists tool, js_search_tool js = Ok tool /\
                    js_tool_in_tools js = false /\
                    js_bind_tools js = Raise e) :
  job_search_invoke js s = search_error_delta s e.
Proof.
  unfold job_search_invoke, job_search_invoke_body.
  destruct H as [H | [tool [H1 [H2 H3]]]].
  - rewrite H. reflexivity.
  - rewrite H1. cbn [exc_bind]. rewrite H2, H3. reflexivity.
Qed.

(** The agent as [_setup_tools] builds it: the service's tool is named like
    the registered [LocalJobSearchTool] but is not equal to it, and
    [self.llm] is never set. *)
Definition unbound_job_search : JobSearchAgent :=
  mkJobSearch (mkAgent "JobSearchAgent" (fun _ _ => Ok [TextBlock "ok"])
                 [("web_search_20250305", fun q => Ok q);
                  ("query_local_jobs", fun q => Ok q)])
              (Ok ("query_local_jobs", fun q => Ok q)) false
              (Raise "'JobSearchAgent' object has no attribute 'llm'")
              (fun _ => []) (fun _ => Ok tt).

Lemma job_search_setup_failure_witness :
  job_search_invoke unbound_job_search (initial_state "job_search") =
  search_error_delta (initial_state "job_search")
    "'JobSearchAgent' object has no attribute 'llm'".
Proof.
  apply job_search_setup_failure. right.
  eexists. split; [reflexivity | split; reflexivity].
Defined.

Definition search_prompt_delta (s : AgentState) : Delta :=
  mkDelta (Some (s.(messages) ++ [AIMessage "请提供搜索关键词，例如：'Python开发工程师'或'Frontend Developer'"])%list)
          None None None None None None None None None (Some []).

(** When the search tool is available and no query can be found (the
    state's [search_query] is absent or empty and so is the content of its
    last message, if any), the job-search agent asks for keywords and
    returns an empty [job_results], whatever its Processor would answer:
    the Processor is never called. *)
Theorem job_search_empty_query (js : JobSearchAgent) (s : AgentState)
  (tool : string * (string -> Exc string))
  (Ht : js_search_tool js = Ok tool)
  (Hb : js_tool_in_tools js = true \/
        js_bind_tools js = Ok tt)
  (Hq : pick (search_query s) "" = "")
  (Hm : match last_message s with
        | Some m => msg_content m = ""
        | None => True
        end) :
  job_search_invoke js s = search_prompt_delta s.
Proof.
  unfold job_search_invoke, job_search_invoke_body.
  rewrite Ht. cbn [exc_bind].
  assert (Hag : exists ag,
             (if js_tool_in_tools js
              then Ok (js_base js)
              else let* _ := js_bind_tools js in
                   Ok (mkAgent (name (js_base js)) (processor (js_base js))
                         (tools (js_base js) ++ [tool])%list)) = Ok ag).
  { destruct Hb as [Hb | Hb].
    - rewrite Hb. eexists. reflexivity.
    - destruct (js_tool_in_tools js); [eexists; reflexivity |].
      rewrite Hb. eexists. reflexivity. }
  destruct Hag as [ag Hag]. rewrite Hag. cbn [exc_bind].
  rewrite Hq. cbn [String.eqb].
  destruct (last_message s) as [m |]; [rewrite Hm |]; reflexivity.
Qed.

(** A job-search agent whose search tool is already registered and whose
    Processor always fails. *)
Definition quiet_job_search : JobSearchAgent :=
  mkJobSearch (mkAgent "job_search_agent" (fun _ _ => Raise "unreachable")
                 [("search_jobs", fun q => Ok q)])
              (Ok ("search_jobs", fun q => Ok q)) true (Raise "bind failed")
              (fun _ => []) (fun _ => Ok tt).

Lemma job_search_empty_query_witness :
  job_search_invoke quiet_job_search (initial_state "job_search") =
  search_prompt_delta (initial_state "job_search").
Proof.
  apply (job_search_empty_query quiet_job_search (initial_state "job_search")
           ("search_jobs", fun q => Ok q));
    [reflexivity | left; reflexivity | reflexivity | exact I].
Defined.

(** ** The callers: api/chat.py and api/agents.py *)

(** [WorkflowType(v)] succeeds exactly on the five enum values, and on them
    it returns the member with that value. *)
Theorem parse_workflow_type_roundtrip (v : string) (w : WorkflowType) :
  parse_workflow_type v = Ok w <-> v = workflow_value w.
Proof.
  split.
  - unfold parse_workflow_type.
    destruct (String.eqb_spec v "job_search");
      [intros E; inversion E; subst; reflexivity |].
    destruct (String.eqb_spec v "resume_analysis");
      [intros E; inversion E; subst; reflexivity |].
    destruct (String.eqb_spec v "skill_analysis");
      [intros E; inversion E; subst; reflexivity |].
    destruct (String.eqb_spec v "resume_optimization");
      [intros E; inversion E; subst; reflexivity |].
    destruct (String.eqb_spec v "comprehensive");
      [intros E; inversion E; subst; reflexivity |].
    discriminate.
  - intros ->. destruct w; reflexivity.
Qed.

(** The [workflow_map] of [handle_agent_request] is the lenient form of
    [WorkflowType(v)]: it returns the member [WorkflowType(v)] would return,
    and [JOB_SEARCH] where [WorkflowType(v)] raises. *)
Theorem workflow_map_get_lenient (v : string) :
  workflow_map_get v =
  match parse_workflow_type v with
  | Ok w => w
  | Raise _ => JOB_SEARCH
  end.
Proof.
  unfold workflow_map_get, parse_workflow_type.
  destruct (String.eqb v "job_search"); [reflexivity |].
  destruct (String.eqb v "resume_analysis"); [reflexivity |].
  destruct (String.eqb v "skill_analysis"); [reflexivity |].
  destruct (String.eqb v "resume_optimization"); [reflexivity |].
  destruct (String.eqb v "comprehensive"); reflexivity.
Qed.

Lemma not_a_value_map (v : string) :
  (forall w, v <> workflow_value w) -> workflow_map_get v = JOB_SEARCH.
Proof.
  intros Hu. unfold workflow_map_get.
  destruct (String.eqb_spec v "job_search") as [-> | _];
    [exfalso; exact (Hu JOB_SEARCH eq_refl) |].
  destruct (String.eqb_spec v "resume_analysis") as [-> | _];
    [exfalso; exact (Hu RESUME_ANALYSIS eq_refl) |].
  destruct (String.eqb_spec v "skill_analysis") as [-> | _];
    [exfalso; exact (Hu SKILL_ANALYSIS eq_refl) |].
  destruct (String.eqb_spec v "resume_optimization") as [-> | _];
    [exfalso; exact (Hu RESUME_OPTIMIZATION eq_refl) |].
  destruct (String.eqb_spec v "comprehensive") as [-> | _];
    [exfalso; exact (Hu COMPREHENSIVE eq_refl) |].
  reflexivity.
Qed.

Lemma not_a_value_parse (v : string) :
  (forall w, v <> workflow_value w) ->
  parse_workflow_type v = Raise (py_repr v ++ " is not a valid WorkflowType").
Proof.
  intros Hu. unfold parse_workflow_type.
  destruct (String.eqb_spec v "job_search") as [-> | _];
    [exfalso; exact (Hu JOB_SEARCH eq_refl) |].
  destruct (String.eqb_spec v "resume_analysis") as [-> | _];
    [exfalso; exact (Hu RESUME_ANALYSIS eq_refl) |].
  destruct (String.eqb_spec v "skill_analysis") as [-> | _];
    [exfalso; exact (Hu SKILL_ANALYSIS eq_refl) |].
  destruct (String.eqb_spec v "resume_optimization") as [-> | _];
    [exfalso; exact (Hu RESUME_OPTIMIZATION eq_refl) |].
  destruct (String.eqb_spec v "comprehensive") as [-> | _];
    [exfalso; exact (Hu COMPREHENSIVE eq_refl) |].
  reflexivity.
Qed.

Lemma not_a_value_typo : forall w, "jobsearch" <> workflow_value w.
Proof. destruct w; discriminate. Qed.

Lemma not_a_value_quote : forall w, "job's" <> workflow_value w.
Proof. destruct w; discriminate. Qed.

(** An ASCII [workflow_type] field that is not a workflow value makes
    [handle_workflow_request] send a single [workflow_error] message quoting
    Python's [ValueError], ["%r is not a valid WorkflowType"] with the
    [repr] of the field: no [workflow_started] message is sent and no
    workflow runs, whatever the user id and the agents. *)
Theorem workflow_request_invalid_type (reg : Registry) (uid : Exc Z)
  (v : string) (Ha : ascii_only v = true)
  (Hu : forall w, v <> workflow_value w) :
  handle_workflow_request reg uid (Some v) =
  [WorkflowErrorMsg ("工作流执行失败 / Workflow execution failed: " ++
                     py_repr v ++ " is not a valid WorkflowType")].
Proof.
  unfold handle_workflow_request. cbn [pick]. rewrite (not_a_value_parse v Hu).
  reflexivity.
Qed.

Lemma workflow_request_invalid_type_witness :
  py_repr "job's" = String dquote ("job's" ++ String dquote EmptyString) /\
  handle_workflow_request immediate_success_registry (Ok 7%Z) (Some "job's") =
  [WorkflowErrorMsg ("工作流执行失败 / Workflow execution failed: " ++
                     py_repr "job's" ++ " is not a valid WorkflowType")].
Proof.
  split; [reflexivity |].
  apply workflow_request_invalid_type; [reflexivity | exact not_a_value_quote].
Defined.


(** The [400 Bad Request] branch of [POST /execute] is unreachable: a
    request body whose [workflow_type] parsed into a [WorkflowType] always
    passes the membership test, so the endpoint always runs the workflow and
    answers with its result. *)
Theorem api_execute_never_400 (reg : Registry) (w : WorkflowType) :
  api_execute_workflow reg w =
  WorkflowResponse (success (execute_workflow reg (workflow_value w))) w
                   (result_error (execute_workflow reg (workflow_value w)))
                   (execution_report (execute_workflow reg (workflow_value w))).
Proof. destruct w; reflexivity. Qed.

(** ** [get_available_workflows] against the coordinator *)

Ltac close_app_nil :=
  match goal with
  | Hx : (?p ++ _ :: _)%list = [] |- _ => destruct p; discriminate
  | Hx : [] = (?p ++ _ :: _)%list |- _ => destruct p; discriminate
  end.

(** Every entry of [get_available_workflows] lists in [agents_involved]
    exactly the agents its workflow dispatches, in the order the coordinator
    dispatches them: once the agents before [a] are completed the
    coordinator chooses [a] and the workflow is not complete yet, and once
    all listed agents are completed the completion check holds. *)
Theorem available_workflows_match_coordinator (e : WorkflowInfo)
  (He : In e get_available_workflows) :
  is_workflow_complete (catalog_state (wi_type e) (wi_agents_involved e)) = true /\
  forall pre a post,
    wi_agents_involved e = (pre ++ a :: post)%list ->
    next_agent (coordinator_node (catalog_state (wi_type e) pre)) = Some a /\
    is_workflow_complete (catalog_state (wi_type e) pre) = false.
Proof.
  simpl in He.
  repeat destruct He as [<- | He]; try contradiction;
    (split; [reflexivity |]);
    intros pre a post H; cbn [wi_agents_involved] in H;
    (destruct pre as [| x1 [| x2 [| x3 [| x4 pre]]]]; simpl in H;
     inversion H; subst; try close_app_nil; split; reflexivity).
Qed.

Lemma available_workflows_match_coordinator_witness :
  let e := mkWorkflowInfo COMPREHENSIVE
             ["job_search_agent"; "resume_critic_agent"; "skill_heatmap_agent";
              "resume_rewrite_agent"] in
  is_workflow_complete (catalog_state (wi_type e) (wi_agents_involved e)) = true /\
  forall pre a post,
    wi_agents_involved e = (pre ++ a :: post)%list ->
    next_agent (coordinator_node (catalog_state (wi_type e) pre)) = Some a /\
    is_workflow_complete (catalog_state (wi_type e) pre) = false.
Proof.
  apply available_workflows_match_coordinator.
  right; right; right; right; left; reflexivity.
Defined.
